(** * Code_Review_and_Debugging.ipynb: [analyze_python_script]

    A shallow embedding of the notebook's code-review pass:

<<
    tree = ast.parse(file.read())
    issues = []
    for node in ast.walk(tree):
        if isinstance(node, ast.For) and any(isinstance(child, ast.For) for child in ast.walk(node)):
            issues.append(f"Inefficient nested loop found at line {node.lineno}")
    imported_modules = {node.names[0].name for node in tree.body if isinstance(node, ast.Import)}
    used_modules = {node.id for node in ast.walk(tree) if isinstance(node, ast.Name)}
    unused_imports = imported_modules - used_modules
    for unused in unused_imports:
        issues.append(f"Unused import: {unused}")
    return issues
>>
*)

From Stdlib Require Import String Ascii Bool Arith ZArith Lia List Permutation.
Import ListNotations.
Open Scope string_scope.

(** ** Python's [ast] nodes *)

(** An [ast.alias]: [import name as asname]. *)
Record alias := mk_alias { alias_name : string; alias_asname : option string }.

(** The node classes the pass distinguishes, with the fields it reads. An
    [ast.Import] always carries at least one alias (the grammar requires it),
    so its first alias is kept apart: [node.names[0]] is then total. *)
Inductive kind :=
| Module
| FunctionDef (fname : string)
| Arguments
| Arg (arg : string)
| For
| AsyncFor
| While
| If
| Import (first : alias) (rest : list alias)
| ImportFrom (modname : option string) (names : list alias)
| Name (id : string)
| Attribute (attr : string)
| Call
| Expr
| Assign
| Compare
| Constant
| Return
| Pass.

Set Warnings "-register-all".

(** A node: its class, its [lineno] (unused for [Module], which has none),
    and its child nodes in the order [ast.iter_child_nodes] yields them. The
    [Load]/[Store] context leaves under [Name] and [Attribute] nodes are left
    out: the pass never inspects them, and dropping leaves changes neither
    which other nodes [ast.walk] yields nor their relative order. *)
Inductive node := Node (k : kind) (lineno : nat) (children : list node).

Definition node_kind (n : node) : kind := let (k, _, _) := n in k.
Definition node_lineno (n : node) : nat := let (_, l, _) := n in l.

(** [ast.iter_child_nodes]. *)
Definition iter_child_nodes (n : node) : list node := let (_, _, cs) := n in cs.

(** [tree.body] of the [ast.Module] returned by [ast.parse]: its statements. *)
Definition tree_body (tree : node) : list node := iter_child_nodes tree.

Fixpoint node_size (n : node) : nat :=
  let (_, _, cs) := n in S (fold_right (fun c acc => node_size c + acc) 0 cs).

Definition forest_size (ns : list node) : nat :=
  fold_right (fun c acc => node_size c + acc) 0 ns.

(** [ast.walk]:
<<
    todo = deque([node])
    while todo:
        node = todo.popleft()
        todo.extend(iter_child_nodes(node))
        yield node
>>
    Every iteration pops one node, so the size of the tree bounds the loop. *)
Fixpoint walk_loop (fuel : nat) (todo : list node) : list node :=
  match fuel with
  | 0 => []
  | S fuel' =>
      match todo with
      | [] => []
      | n :: todo' => n :: walk_loop fuel' (todo' ++ iter_child_nodes n)
      end
  end.

Definition walk (n : node) : list node := walk_loop (node_size n) [n].

(** Every node of a tree, in pre-order (a node, then its children's subtrees
    left to right). *)
Fixpoint preorder (n : node) : list node :=
  let (k, l, cs) := n in Node k l cs :: flat_map preorder cs.

(** Level order: all nodes at depth 0, then all nodes at depth 1, ... each
    level left to right. [fuel] bounds the number of levels. *)
Fixpoint levels_from (fuel : nat) (level : list node) : list node :=
  match fuel with
  | 0 => []
  | S fuel' =>
      match level with
      | [] => []
      | _ :: _ => level ++ levels_from fuel' (flat_map iter_child_nodes level)
      end
  end.

Definition level_order (n : node) : list node := levels_from (node_size n) [n].

(** [isinstance(node, ast.For)], [isinstance(node, ast.Name)], ... *)
Definition is_For (n : node) : bool :=
  match node_kind n with For => true | _ => false end.

Definition name_id (n : node) : option string :=
  match node_kind n with Name x => Some x | _ => None end.

Definition first_import_name (n : node) : option string :=
  match node_kind n with Import a _ => Some (alias_name a) | _ => None end.

(** ** f-strings *)

Fixpoint string_of_digits (d : Decimal.uint) : string :=
  match d with
  | Decimal.Nil => ""
  | Decimal.D0 d' => String "0" (string_of_digits d')
  | Decimal.D1 d' => String "1" (string_of_digits d')
  | Decimal.D2 d' => String "2" (string_of_digits d')
  | Decimal.D3 d' => String "3" (string_of_digits d')
  | Decimal.D4 d' => String "4" (string_of_digits d')
  | Decimal.D5 d' => String "5" (string_of_digits d')
  | Decimal.D6 d' => String "6" (string_of_digits d')
  | Decimal.D7 d' => String "7" (string_of_digits d')
  | Decimal.D8 d' => String "8" (string_of_digits d')
  | Decimal.D9 d' => String "9" (string_of_digits d')
  end.

(** [str(n)] for a non-negative int. *)
Definition str_of_nat (n : nat) : string := string_of_digits (Nat.to_uint n).

Definition nested_loop_msg (lineno : nat) : string :=
  "Inefficient nested loop found at line " ++ str_of_nat lineno.

Definition unused_import_msg (name : string) : string :=
  "Unused import: " ++ name.

(** ** Python sets of [str] *)

(** A set comprehension keeps one copy of each element. *)
Fixpoint py_set (xs : list string) : list string :=
  match xs with
  | [] => []
  | x :: xs' => if existsb (String.eqb x) (py_set xs') then py_set xs' else x :: py_set xs'
  end.

Definition py_mem (x : string) (s : list string) : bool := existsb (String.eqb x) s.

(** [a - b] on sets (the elements; their iteration order is chosen below). *)
Definition py_set_diff (a b : list string) : list string :=
  filter (fun x => negb (py_mem x b)) a.

(** ** The pass *)

Section Analyze.

(** [for unused in unused_imports] iterates a set of [str] in hash-table slot
    order. CPython salts [str] hashes per process ([PYTHONHASHSEED]), so this
    order is a permutation of the elements that is fixed within one process
    and may change from one run of the interpreter to the next. *)
Variable set_iter : list string -> list string.

(** [isinstance(node, ast.For) and any(isinstance(child, ast.For) for child in ast.walk(node))] *)
Definition nested_loop_flag (n : node) : bool :=
  is_For n && existsb is_For (walk n).

Definition nested_loop_issues (tree : node) : list string :=
  map (fun n => nested_loop_msg (node_lineno n)) (filter nested_loop_flag (walk tree)).

Definition imported_modules (tree : node) : list string :=
  py_set (flat_map (fun n => match first_import_name n with Some x => [x] | None => [] end)
                   (tree_body tree)).

Definition used_modules (tree : node) : list string :=
  py_set (flat_map (fun n => match name_id n with Some x => [x] | None => [] end)
                   (walk tree)).

Definition unused_imports (tree : node) : list string :=
  py_set_diff (imported_modules tree) (used_modules tree).

Definition unused_import_issues (tree : node) : list string :=
  map unused_import_msg (set_iter (unused_imports tree)).

Definition analyze (tree : node) : list string :=
  nested_loop_issues tree ++ unused_import_issues tree.

End Analyze.

(** ** Parsing and the script entry point *)

Inductive exn := SyntaxError (msg : string).

Inductive parse_result := Parsed (tree : node) | ParseFailed (msg : string).

(** Outcome of a Python call: a returned value or a raised exception. *)
Inductive py_result (A : Type) := Returned (v : A) | Raised (e : exn).
Arguments Returned {A} v.
Arguments Raised {A} e.

(** [analyze_python_script], from the text read out of [file_path]; [parse]
    is [ast.parse], which raises [SyntaxError] on text that does not parse. *)
Definition analyze_python_script (parse : string -> parse_result)
    (set_iter : list string -> list string) (source : string) : py_result (list string) :=
  match parse source with
  | ParseFailed msg => Raised (SyntaxError msg)
  | Parsed tree => Returned (analyze set_iter tree)
  end.

(** ** Sample trees *)

Definition nm (x : string) (l : nat) : node := Node (Name x) l [].
Definition imp (x : string) (l : nat) : node := Node (Import (mk_alias x None) []) l [].

(** The notebook's example script (cell 3):
<<
 1  import numpy as np  # Unused import
 2  import random
 3
 4  # Function with an inefficient nested loop
 5  def slow_function(numbers):
 6      result = []
 7      for i in numbers:
 8          for j in numbers:  # Inefficient nested loop
 9              if i * j > 10:
10                  result.append((i, j))
11      return result
12
13  data = [random.randint(1, 5) for _ in range(5)]
14  print(slow_function(data))
>>
    (the comprehension of line 13 is abbreviated to the call it contains). *)
Definition example_script : node :=
  Node Module 0
    [ Node (Import (mk_alias "numpy" (Some "np")) []) 1 [];
      imp "random" 2;
      Node (FunctionDef "slow_function") 5
        [ Node Arguments 5 [Node (Arg "numbers") 5 []];
          Node Assign 6 [nm "result" 6; Node Constant 6 []];
          Node For 7
            [ nm "i" 7; nm "numbers" 7;
              Node For 8
                [ nm "j" 8; nm "numbers" 8;
                  Node If 9
                    [ Node Compare 9 [nm "i" 9; nm "j" 9; Node Constant 9 []];
                      Node Expr 10
                        [ Node Call 10 [Node (Attribute "append") 10 [nm "result" 10];
                                        nm "i" 10; nm "j" 10] ] ] ] ];
          Node Return 11 [nm "result" 11] ];
      Node Assign 13
        [ nm "data" 13;
          Node Call 13 [Node (Attribute "randint") 13 [nm "random" 13];
                        Node Constant 13 []; Node Constant 13 []] ];
      Node Expr 14 [Node Call 14 [nm "print" 14; Node Call 14 [nm "slow_function" 14; nm "data" 14]]] ].



(** The names an import statement binds in the module namespace. *)
Definition alias_bound_name (a : alias) : string :=
  match alias_asname a with Some x => x | None => alias_name a end.

Definition import_bound_names (n : node) : list string :=
  match node_kind n with
  | Import a rest => map alias_bound_name (a :: rest)
  | ImportFrom _ names => map alias_bound_name names
  | _ => []
  end.

(** The same tree with every [while] statement turned into an [if] with the
    same test and body (a non-loop statement of the same shape). *)
Fixpoint erase_while (n : node) : node :=
  let (k, l, cs) := n in
  Node (match k with While => If | _ => k end) l (map erase_while cs).

(** A bracket checker standing in for [ast.parse] on test inputs: text with
    unbalanced brackets is rejected, anything else parses to an empty module. *)
Fixpoint bracket_depth (depth : nat) (s : string) : option nat :=
  match s with
  | EmptyString => Some depth
  | String c s' =>
      if Ascii.eqb c "(" then bracket_depth (S depth) s'
      else if Ascii.eqb c ")" then
        match depth with 0 => None | S d => bracket_depth d s' end
      else bracket_depth depth s'
  end.

Definition bracket_parse (s : string) : parse_result :=
  match bracket_depth 0 s with
  | Some 0 => Parsed (Node Module 0 [])
  | _ => ParseFailed "unexpected EOF while parsing"
  end.

(** [for i in xs: pass] *)
Definition flat_loop : node :=
  Node Module 0 [Node For 1 [nm "i" 1; nm "xs" 1; Node Pass 1 []]].

(**
<<
1  for i in xs:
2      for j in xs:
3          pass
>> *)
Definition loop_in_loop : node :=
  Node Module 0
    [Node For 1 [nm "i" 1; nm "xs" 1;
                 Node For 2 [nm "j" 2; nm "xs" 2; Node Pass 3 []]]].

(**
<<
1  for a in xs:
2      for b in xs:
3          for c in xs:
4              pass
>> *)
Definition triple_loop : node :=
  Node Module 0
    [Node For 1 [nm "a" 1; nm "xs" 1;
                 Node For 2 [nm "b" 2; nm "xs" 2;
                             Node For 3 [nm "c" 3; nm "xs" 3; Node Pass 4 []]]]].

(** [import numpy as np] *)
Definition numpy_as_np : node :=
  Node Module 0 [Node (Import (mk_alias "numpy" (Some "np")) []) 1 []].

(** [import os, sys] *)
Definition os_comma_sys : node :=
  Node Module 0 [Node (Import (mk_alias "os" None) [mk_alias "sys" None]) 1 []].

(**
<<
1  import os, sys
2  import sys
>> *)
Definition sys_twice : node :=
  Node Module 0
    [Node (Import (mk_alias "os" None) [mk_alias "sys" None]) 1 [];
     imp "sys" 2].

(**
<<
1  import os
2  import sys
>> *)
Definition os_then_sys : node := Node Module 0 [imp "os" 1; imp "sys" 2].

(**
<<
1  def f(xs):
2      for i in xs:
3          for j in xs:
4              pass
5  for k in xs:
6      for m in xs:
7          pass
>> *)
Definition loop_in_def_then_loop : node :=
  Node Module 0
    [ Node (FunctionDef "f") 1
        [ Node Arguments 1 [Node (Arg "xs") 1 []];
          Node For 2 [nm "i" 2; nm "xs" 2;
                      Node For 3 [nm "j" 3; nm "xs" 3; Node Pass 4 []]] ];
      Node For 5 [nm "k" 5; nm "xs" 5;
                  Node For 6 [nm "m" 6; nm "xs" 6; Node Pass 7 []]] ].

(** ** The notebook's other cells *)

(** The report printed by cell 1 after the call, one printed line per
    element:
<<
    if issues:
        print("⚠️ Code Review Issues Found:")
        for issue in issues:
            print(f"- {issue}")
    else:
        print("✅ No issues found!")
>> *)
Definition issues_header : string := "⚠️ Code Review Issues Found:".
Definition no_issues_line : string := "✅ No issues found!".

Definition report (issues : list string) : list string :=
  match issues with
  | [] => [no_issues_line]
  | _ :: _ => issues_header :: map (fun issue => "- " ++ issue) issues
  end.

(** Cell 3, on a list of Python ints:
<<
    def slow_function(numbers):
        result = []
        for i in numbers:
            for j in numbers:  # Inefficient nested loop
                if i * j > 10:
                    result.append((i, j))
        return result
>> *)
Definition slow_function (numbers : list Z) : list (Z * Z) :=
  fold_left
    (fun result i =>
       fold_left
         (fun result j => if Z.ltb 10 (i * j) then (result ++ [(i, j)])%list else result)
         numbers result)
    numbers [].

(** Cell 5:
<<
    def optimized_function(numbers):
        return [(i, j) for i in numbers for j in numbers if i * j > 10]
>> *)
Definition optimized_function (numbers : list Z) : list (Z * Z) :=
  flat_map (fun i => flat_map (fun j => if Z.ltb 10 (i * j) then [(i, j)] else []) numbers)
           numbers.

(** Cell 7: the same comprehension after a [logging.info] call. The records
    it emits are returned beside the result, as (level, message) pairs; the
    timestamp added by the [basicConfig] format is not modelled. *)
Inductive log_level := DEBUG | INFO | WARNING | ERROR.

Definition optimized_function_logged (numbers : list Z) : list (log_level * string) * list (Z * Z) :=
  ([(INFO, "Processing " ++ str_of_nat (List.length numbers) ++ " numbers")],
   flat_map (fun i => flat_map (fun j => if Z.ltb 10 (i * j) then [(i, j)] else []) numbers)
            numbers).

Definition pair_eq_dec (x y : Z * Z) : {x = y} + {x <> y}.
Proof. decide equality; apply Z.eq_dec. Defined.
#[global] Opaque pair_eq_dec.

Definition swap (p : Z * Z) : Z * Z := let (a, b) := p in (b, a).

(**
<<
1  from os import path
2  while path:
3      print(path)
>> *)
Definition from_import_and_while : node :=
  Node Module 0
    [ Node (ImportFrom (Some "os") [mk_alias "path" None]) 1 [];
      Node While 2 [nm "path" 2;
                    Node Expr 3 [Node Call 3 [nm "print" 3; nm "path" 3]]] ].

(** ** Traversal lemmas *)

Open Scope list_scope.

Section NodeInd.
Variable P : node -> Prop.
Hypothesis HP : forall k l cs, Forall P cs -> P (Node k l cs).

Fixpoint node_ind' (n : node) : P n :=
  match n with
  | Node k l cs =>
      HP k l cs
        ((fix go (cs : list node) : Forall P cs :=
            match cs with
            | [] => Forall_nil _
            | c :: cs' => Forall_cons _ (node_ind' c) (go cs')
            end) cs)
  end.
End NodeInd.

Lemma forest_size_app (a b : list node) :
  forest_size (a ++ b) = forest_size a + forest_size b.
Proof. induction a as [|x a IH]; simpl; [reflexivity | rewrite IH; lia]. Qed.

Lemma node_size_children (n : node) :
  node_size n = S (forest_size (iter_child_nodes n)).
Proof. destruct n; reflexivity. Qed.

Lemma forest_size_children (q : list node) :
  forest_size (flat_map iter_child_nodes q) + length q = forest_size q.
Proof.
  induction q as [|n q IH]; simpl; [reflexivity|].
  rewrite forest_size_app, (node_size_children n). lia.
Qed.

Lemma length_le_forest_size (q : list node) : length q <= forest_size q.
Proof. pose proof (forest_size_children q). lia. Qed.

(** [ast.walk] yields a whole prefix of its queue before anything appended
    behind it. *)
Lemma walk_loop_app (q r : list node) (f : nat) :
  length q <= f ->
  walk_loop f (q ++ r) = q ++ walk_loop (f - length q) (r ++ flat_map iter_child_nodes q).
Proof.
  revert r f. induction q as [|n q IH]; intros r f Hf; simpl.
  - rewrite Nat.sub_0_r, app_nil_r. reflexivity.
  - destruct f as [|f]; simpl in Hf; [lia|]. simpl.
    rewrite <- app_assoc, IH by lia. rewrite <- app_assoc. reflexivity.
Qed.

Lemma walk_loop_levels_from (g f : nat) (q : list node) :
  forest_size q <= f -> forest_size q <= g -> walk_loop f q = levels_from g q.
Proof.
  revert f q. induction g as [|g IH]; intros f q Hf Hg.
  - destruct q as [|n q]; [destruct f; reflexivity|].
    simpl in Hg. rewrite node_size_children in Hg. lia.
  - destruct q as [|n q]; [destruct f; reflexivity|].
    pose proof (forest_size_children (n :: q)) as Hc.
    pose proof (length_le_forest_size (n :: q)) as Hl.
    rewrite <- (app_nil_r (n :: q)) at 1.
    rewrite walk_loop_app by lia.
    change (levels_from (S g) (n :: q))
      with ((n :: q) ++ levels_from g (flat_map iter_child_nodes (n :: q))).
    rewrite app_nil_l. f_equal.
    simpl length in *. apply IH; lia.
Qed.

(** [ast.walk] is the level-order traversal. *)
Lemma walk_level_order (t : node) : walk t = level_order t.
Proof.
  unfold walk, level_order. apply walk_loop_levels_from; simpl; lia.
Qed.

Lemma walk_loop_perm (f : nat) (q : list node) :
  forest_size q <= f -> Permutation (walk_loop f q) (flat_map preorder q).
Proof.
  revert q. induction f as [|f IH]; intros q Hf.
  - destruct q as [|n q]; [reflexivity|].
    simpl in Hf. rewrite node_size_children in Hf. lia.
  - destruct q as [|n q]; [reflexivity|]. simpl.
    destruct n as [k l cs]. simpl.
    apply perm_skip.
    rewrite IH.
    + rewrite flat_map_app. apply Permutation_app_comm.
    + rewrite forest_size_app.
      pose proof (node_size_children (Node k l cs)) as Hn. cbn [iter_child_nodes] in Hn.
      change (forest_size (Node k l cs :: q))
        with (node_size (Node k l cs) + forest_size q) in Hf.
      lia.
Qed.

(** [ast.walk] yields every node of the tree exactly once. *)
Lemma walk_perm_preorder (t : node) : Permutation (walk t) (preorder t).
Proof.
  unfold walk. rewrite walk_loop_perm; simpl; [rewrite app_nil_r; reflexivity | lia].
Qed.

(** ** Sets and messages *)

Lemma py_mem_In (x : string) (s : list string) : py_mem x s = true <-> In x s.
Proof.
  unfold py_mem. rewrite existsb_exists. split.
  - intros [y [Hy Heq]]. apply String.eqb_eq in Heq. subst. exact Hy.
  - intros H. exists x. split; [exact H | apply String.eqb_refl].
Qed.

Lemma py_set_In (x : string) (xs : list string) : In x (py_set xs) <-> In x xs.
Proof.
  induction xs as [|y xs IH]; simpl; [tauto|].
  destruct (existsb (String.eqb y) (py_set xs)) eqn:E.
  - apply (py_mem_In y) in E. rewrite IH in *. split; [tauto|].
    intros [->|H]; tauto.
  - simpl. rewrite IH. tauto.
Qed.

Lemma py_set_NoDup (xs : list string) : NoDup (py_set xs).
Proof.
  induction xs as [|y xs IH]; simpl; [constructor|].
  destruct (existsb (String.eqb y) (py_set xs)) eqn:E; [exact IH|].
  constructor; [|exact IH].
  intros Hin. apply (py_mem_In y) in Hin. unfold py_mem in Hin. congruence.
Qed.

Lemma unused_import_msg_inj (a b : string) :
  unused_import_msg a = unused_import_msg b -> a = b.
Proof. unfold unused_import_msg. simpl. intros H. inversion H. reflexivity. Qed.

Lemma nested_loop_msg_not_unused (l : nat) (x : string) :
  nested_loop_msg l <> unused_import_msg x.
Proof. unfold nested_loop_msg, unused_import_msg. simpl. discriminate. Qed.

Lemma count_occ_map_inj (f : string -> string) (l : list string) (x : string) :
  (forall a b, f a = f b -> a = b) ->
  count_occ string_dec (map f l) (f x) = count_occ string_dec l x.
Proof.
  intros Hf. induction l as [|y l IH]; simpl; [reflexivity|].
  destruct (string_dec (f y) (f x)) as [E|E], (string_dec y x) as [E'|E'].
  - rewrite IH. reflexivity.
  - apply Hf in E. contradiction.
  - subst. contradiction.
  - exact IH.
Qed.

Lemma nested_loop_issues_not_unused (t : node) (x : string) :
  ~ In (unused_import_msg x) (nested_loop_issues t).
Proof.
  unfold nested_loop_issues. rewrite in_map_iff.
  intros [n [Hn _]]. exact (nested_loop_msg_not_unused _ _ Hn).
Qed.

Lemma In_imported_modules (t : node) (x : string) :
  In x (imported_modules t) <-> In (Some x) (map first_import_name (tree_body t)).
Proof.
  unfold imported_modules. rewrite py_set_In, in_flat_map, in_map_iff.
  split.
  - intros [n [Hn Hx]]. exists n. split; [|exact Hn].
    destruct (first_import_name n); simpl in Hx; [|contradiction].
    destruct Hx as [->|[]]. reflexivity.
  - intros [n [Hx Hn]]. exists n. split; [exact Hn|]. rewrite Hx. left. reflexivity.
Qed.

Lemma In_used_modules (t : node) (x : string) :
  In x (used_modules t) <-> exists n, In n (preorder t) /\ name_id n = Some x.
Proof.
  unfold used_modules. rewrite py_set_In, in_flat_map.
  split.
  - intros [n [Hn Hx]]. exists n. split.
    + eapply Permutation_in; [apply walk_perm_preorder | exact Hn].
    + destruct (name_id n); simpl in Hx; [|contradiction].
      destruct Hx as [->|[]]. reflexivity.
  - intros [n [Hn Hx]]. exists n. split.
    + eapply Permutation_in; [symmetry; apply walk_perm_preorder | exact Hn].
    + rewrite Hx. left. reflexivity.
Qed.

Lemma In_unused_imports (t : node) (x : string) :
  In x (unused_imports t) <->
  In x (imported_modules t) /\ ~ In x (used_modules t).
Proof.
  unfold unused_imports, py_set_diff. rewrite filter_In, negb_true_iff.
  rewrite <- (py_mem_In x (used_modules t)). destruct (py_mem x (used_modules t)); simpl.
  - split.
    + intros [_ H]. discriminate H.
    + intros [_ H]. exfalso. apply H. reflexivity.
  - split.
    + intros [H _]. split; [exact H | discriminate].
    + intros [H _]. split; [exact H | reflexivity].
Qed.

Lemma unused_imports_NoDup (t : node) : NoDup (unused_imports t).
Proof. apply NoDup_filter, py_set_NoDup. Qed.

(** What [for unused in unused_imports] may iterate: the elements of the
    set, each once, in some order. *)
Definition set_iter_ok (set_iter : list string -> list string) : Prop :=
  forall l, NoDup l -> Permutation (set_iter l) l.

Lemma count_unused_msg (set_iter : list string -> list string) (t : node) (x : string) :
  set_iter_ok set_iter ->
  count_occ string_dec (analyze set_iter t) (unused_import_msg x) =
  count_occ string_dec (unused_imports t) x.
Proof.
  intros Hok. unfold analyze, unused_import_issues.
  rewrite count_occ_app.
  rewrite (proj1 (count_occ_not_In _ _ _) (nested_loop_issues_not_unused t x)).
  rewrite count_occ_map_inj by exact unused_import_msg_inj.
  apply Permutation_count_occ, Hok, unused_imports_NoDup.
Qed.

Lemma In_unused_msg (set_iter : list string -> list string) (t : node) (x : string) :
  set_iter_ok set_iter ->
  In (unused_import_msg x) (analyze set_iter t) <-> In x (unused_imports t).
Proof.
  intros Hok. rewrite !(count_occ_In string_dec), count_unused_msg by exact Hok.
  reflexivity.
Qed.

(** The inner [ast.walk(node)] starts at [node] itself. *)
Lemma walk_head (n : node) : exists rest, walk n = n :: rest.
Proof. destruct n as [k l cs]. eexists. reflexivity. Qed.

Lemma for_always_flagged (n : node) : is_For n = true -> nested_loop_flag n = true.
Proof.
  intros H. unfold nested_loop_flag. rewrite H. simpl.
  destruct (walk_head n) as [rest ->]. simpl. rewrite H. reflexivity.
Qed.

(** ** [while] statements *)

Lemma children_erase_while (n : node) :
  iter_child_nodes (erase_while n) = map erase_while (iter_child_nodes n).
Proof. destruct n; reflexivity. Qed.

Lemma node_size_erase_while (n : node) : node_size (erase_while n) = node_size n.
Proof.
  induction n as [k l cs IH] using node_ind'. simpl. f_equal.
  induction IH as [|c cs Hc _ IHcs]; simpl; [reflexivity|]. rewrite Hc, IHcs. reflexivity.
Qed.

Lemma walk_loop_erase_while (f : nat) (q : list node) :
  walk_loop f (map erase_while q) = map erase_while (walk_loop f q).
Proof.
  revert q. induction f as [|f IH]; intros q; [reflexivity|].
  destruct q as [|n q]; [reflexivity|]. simpl.
  rewrite children_erase_while, <- map_app, IH. reflexivity.
Qed.

Lemma walk_erase_while (n : node) : walk (erase_while n) = map erase_while (walk n).
Proof.
  unfold walk. rewrite node_size_erase_while.
  change [erase_while n] with (map erase_while [n]). apply walk_loop_erase_while.
Qed.

Lemma is_For_erase_while (n : node) : is_For (erase_while n) = is_For n.
Proof. destruct n as [[] l cs]; reflexivity. Qed.

Lemma existsb_is_For_erase_while (l : list node) :
  existsb is_For (map erase_while l) = existsb is_For l.
Proof. induction l as [|n l IH]; simpl; [reflexivity|]. rewrite is_For_erase_while, IH. reflexivity. Qed.

Lemma nested_loop_flag_erase_while (n : node) :
  nested_loop_flag (erase_while n) = nested_loop_flag n.
Proof.
  unfold nested_loop_flag. rewrite is_For_erase_while, walk_erase_while.
  rewrite existsb_is_For_erase_while. reflexivity.
Qed.

Lemma node_lineno_erase_while (n : node) : node_lineno (erase_while n) = node_lineno n.
Proof. destruct n; reflexivity. Qed.

Lemma name_id_erase_while (n : node) : name_id (erase_while n) = name_id n.
Proof. destruct n as [[] l cs]; reflexivity. Qed.

Lemma first_import_name_erase_while (n : node) :
  first_import_name (erase_while n) = first_import_name n.
Proof. destruct n as [[] l cs]; reflexivity. Qed.

Lemma flat_map_erase_while (h : node -> list string) (l : list node) :
  (forall n, h (erase_while n) = h n) ->
  flat_map h (map erase_while l) = flat_map h l.
Proof. intros Hh. induction l as [|n l IH]; simpl; [reflexivity|]. rewrite Hh, IH. reflexivity. Qed.

Lemma nested_msgs_erase_while (l : list node) :
  map (fun n => nested_loop_msg (node_lineno n)) (filter nested_loop_flag (map erase_while l)) =
  map (fun n => nested_loop_msg (node_lineno n)) (filter nested_loop_flag l).
Proof.
  induction l as [|n l IH]; simpl; [reflexivity|].
  rewrite nested_loop_flag_erase_while.
  destruct (nested_loop_flag n); simpl; [rewrite node_lineno_erase_while|]; rewrite IH; reflexivity.
Qed.

Lemma analyze_erase_while (set_iter : list string -> list string) (t : node) :
  analyze set_iter (erase_while t) = analyze set_iter t.
Proof.
  unfold analyze, nested_loop_issues, unused_import_issues, unused_imports,
    imported_modules, used_modules, tree_body.
  rewrite walk_erase_while, children_erase_while, nested_msgs_erase_while.
  rewrite (flat_map_erase_while (fun n => match first_import_name n with Some x => [x] | None => [] end))
    by (intros n; rewrite first_import_name_erase_while; reflexivity).
  rewrite (flat_map_erase_while (fun n => match name_id n with Some x => [x] | None => [] end))
    by (intros n; rewrite name_id_erase_while; reflexivity).
  reflexivity.
Qed.

(** ** Claims *)

(** C1 (code_bug): a single [for] loop with no loop in its body, the first
    scenario the claim rules out, still gets a nested-loop finding: the inner
    [ast.walk(node)] yields [node] itself, which is a [For]. *)
Theorem C1_flat_loop_flagged :
  nested_loop_issues flat_loop = ["Inefficient nested loop found at line 1"].
Proof. reflexivity. Qed.

(** C2 (code_bug): a loop directly inside another yields a finding at both
    lines, not only the outer one; a triple nesting yields three findings,
    one of them at the innermost loop's line. *)
Theorem C2_inner_loops_flagged :
  nested_loop_issues loop_in_loop =
    ["Inefficient nested loop found at line 1";
     "Inefficient nested loop found at line 2"] /\
  nested_loop_issues triple_loop =
    ["Inefficient nested loop found at line 1";
     "Inefficient nested loop found at line 2";
     "Inefficient nested loop found at line 3"].
Proof. split; reflexivity. Qed.

(** C3 (counterexample): [import os, sys] binds [sys] at top level and
    nothing references it, yet no "Unused import: sys" is emitted. *)
Lemma C3_second_clause_not_reported :
  ~ (forall set_iter, set_iter_ok set_iter -> forall t N,
       In (unused_import_msg N) (analyze set_iter t) <->
       (exists n, In n (tree_body t) /\ In N (import_bound_names n)) /\
       (forall n, In n (preorder t) -> name_id n <> Some N)).
Proof.
  intros H.
  assert (Hin : In (unused_import_msg "sys") (analyze (fun l => l) os_comma_sys)).
  { apply (H (fun l => l) (fun l _ => Permutation_refl l)). split.
    - exists (Node (Import (mk_alias "os" None) [mk_alias "sys" None]) 1 []).
      split; [left; reflexivity | right; left; reflexivity].
    - intros n Hn. simpl in Hn.
      destruct Hn as [<- | [<- | []]]; discriminate. }
  vm_compute in Hin. destruct Hin as [Hm | []]. discriminate Hm.
Qed.

(** C3 (amended): "Unused import: N" is emitted exactly when N is the module
    name written in the first clause of a top-level [import] statement and no
    [Name] node anywhere in the tree has id N; it is then emitted exactly
    once, and never more than once. *)
Theorem C3_unused_import_exact (set_iter : list string -> list string)
    (Hok : set_iter_ok set_iter) (t : node) (N : string) :
  (count_occ string_dec (analyze set_iter t) (unused_import_msg N) = 1 <->
   In (Some N) (map first_import_name (tree_body t)) /\
   (forall n, In n (preorder t) -> name_id n <> Some N)) /\
  count_occ string_dec (analyze set_iter t) (unused_import_msg N) <= 1.
Proof.
  rewrite count_unused_msg by exact Hok.
  pose proof (proj1 (NoDup_count_occ string_dec _) (unused_imports_NoDup t) N) as Hle.
  split; [|exact Hle].
  rewrite <- In_imported_modules.
  transitivity (In N (unused_imports t)).
  - rewrite (count_occ_In string_dec). lia.
  - rewrite In_unused_imports, In_used_modules. split.
    + intros [Hi Hu]. split; [exact Hi|]. intros n Hn Hid. apply Hu. exists n. tauto.
    + intros [Hi Hu]. split; [exact Hi|]. intros [n [Hn Hid]]. exact (Hu n Hn Hid).
Qed.

(** C4: a [Name] node with id X anywhere in the tree, at any depth (inside
    a function body included), rules out an unused-import finding for X. *)
Theorem C4_referenced_not_reported (set_iter : list string -> list string)
    (Hok : set_iter_ok set_iter) (t : node) (X : string) (l : nat) (cs : list node) :
  In (Node (Name X) l cs) (preorder t) ->
  ~ In (unused_import_msg X) (analyze set_iter t).
Proof.
  intros Hin. rewrite In_unused_msg by exact Hok.
  rewrite In_unused_imports, In_used_modules.
  intros [_ Hu]. apply Hu. exists (Node (Name X) l cs). split; [exact Hin | reflexivity].
Qed.

(** C5: a top-level [import M as A] (e.g. [import numpy as np]) in a tree
    where neither [M] nor [A] is referenced by a [Name] node yields exactly
    one "Unused import: M" finding, keyed on the module name; the alias [A]
    is never reported unless some top-level [import] names [A] as the module
    of its first clause. *)
Theorem C5_keyed_on_module_name (set_iter : list string -> list string)
    (Hok : set_iter_ok set_iter) (t : node) (M A : string) (rest : list alias)
    (l : nat) (cs : list node) :
  In (Node (Import (mk_alias M (Some A)) rest) l cs) (tree_body t) ->
  (forall n, In n (preorder t) -> name_id n <> Some M /\ name_id n <> Some A) ->
  count_occ string_dec (analyze set_iter t) (unused_import_msg M) = 1 /\
  (~ In (Some A) (map first_import_name (tree_body t)) ->
   ~ In (unused_import_msg A) (analyze set_iter t)).
Proof.
  intros Hin Hnames. split.
  - rewrite count_unused_msg by exact Hok.
    apply (proj1 (NoDup_count_occ' string_dec _) (unused_imports_NoDup t)).
    apply In_unused_imports. split.
    + apply In_imported_modules, in_map_iff.
      exists (Node (Import (mk_alias M (Some A)) rest) l cs). split; [reflexivity | exact Hin].
    + rewrite In_used_modules. intros [n [Hn Hid]]. exact (proj1 (Hnames n Hn) Hid).
  - intros HA. rewrite In_unused_msg, In_unused_imports, In_imported_modules by exact Hok.
    intros [Hi _]. exact (HA Hi).
Qed.

(** C6 (counterexample): the nested-loop findings do not come in pre-order.
    In [loop_in_def_then_loop] the loop at line 5 sits one level higher than
    the loop at line 2 and is reported first. *)
Lemma C6_not_preorder :
  ~ (forall set_iter t, exists u,
       analyze set_iter t =
       map (fun n => nested_loop_msg (node_lineno n)) (filter nested_loop_flag (preorder t)) ++ u).
Proof.
  intros H. destruct (H (fun l => l) loop_in_def_then_loop) as [u Hu].
  vm_compute in Hu. discriminate Hu.
Qed.

(** C6 (amended): the findings are all nested-loop findings followed by all
    unused-import findings, and the nested-loop findings come in the order of
    [ast.walk], which is level order (breadth first, each level left to
    right). *)
Theorem C6_findings_order (set_iter : list string -> list string) (t : node) :
  analyze set_iter t =
  map (fun n => nested_loop_msg (node_lineno n)) (filter nested_loop_flag (level_order t)) ++
  map unused_import_msg (set_iter (unused_imports t)).
Proof.
  unfold analyze, nested_loop_issues, unused_import_issues.
  rewrite walk_level_order. reflexivity.
Qed.

(** C7: when [ast.parse] raises [SyntaxError], [analyze_python_script]
    raises that same error and returns no findings. *)
Theorem C7_syntax_error_aborts (parse : string -> parse_result)
    (set_iter : list string -> list string) (source msg : string) :
  parse source = ParseFailed msg ->
  analyze_python_script parse set_iter source = Raised (SyntaxError msg) /\
  forall issues, analyze_python_script parse set_iter source <> Returned issues.
Proof.
  intros Hp. unfold analyze_python_script. rewrite Hp.
  split; [reflexivity | discriminate].
Qed.

(** C8 (counterexample): two interpreter runs whose [str] hashes order the
    set [{"os", "sys"}] differently report the two unused imports in opposite
    orders. *)
Lemma C8_order_depends_on_hash_seed :
  ~ (forall set_iter1 set_iter2, set_iter_ok set_iter1 -> set_iter_ok set_iter2 ->
       forall t, analyze set_iter1 t = analyze set_iter2 t).
Proof.
  intros H.
  pose proof (H (fun l => l) (@rev string) (fun l _ => Permutation_refl l)
                (fun l _ => Permutation_sym (Permutation_rev l)) os_then_sys) as E.
  vm_compute in E. discriminate E.
Qed.

(** C8 (amended): two runs on the same text either raise the same error, or
    both return the same nested-loop findings in the same order followed by
    the same unused-import findings, whose relative order may differ between
    runs (it follows the set's iteration order). *)
Theorem C8_runs_agree_up_to_set_order (parse : string -> parse_result)
    (set_iter1 set_iter2 : list string -> list string)
    (H1 : set_iter_ok set_iter1) (H2 : set_iter_ok set_iter2) (source : string) :
  (exists e, analyze_python_script parse set_iter1 source = Raised e /\
             analyze_python_script parse set_iter2 source = Raised e) \/
  (exists tree u1 u2,
     analyze_python_script parse set_iter1 source = Returned (nested_loop_issues tree ++ u1) /\
     analyze_python_script parse set_iter2 source = Returned (nested_loop_issues tree ++ u2) /\
     Permutation u1 u2).
Proof.
  unfold analyze_python_script. destruct (parse source) as [tree | msg].
  - right. exists tree, (unused_import_issues set_iter1 tree), (unused_import_issues set_iter2 tree).
    split; [reflexivity|]. split; [reflexivity|].
    unfold unused_import_issues. apply Permutation_map.
    eapply perm_trans; [apply H1, unused_imports_NoDup|].
    symmetry. apply H2, unused_imports_NoDup.
  - left. exists (SyntaxError msg). split; reflexivity.
Qed.

(** C9 (counterexample): with [import os, sys] followed by [import sys],
    the name [sys] bound by the second clause of the first statement is
    reported, because the second statement declares it first. *)
Lemma C9_second_clause_name_reported :
  ~ (forall set_iter, set_iter_ok set_iter -> forall t n a rest al,
       In n (tree_body t) -> node_kind n = Import a rest -> In al rest ->
       ~ In (unused_import_msg (alias_bound_name al)) (analyze set_iter t)).
Proof.
  intros H.
  apply (H (fun l => l) (fun l _ => Permutation_refl l) sys_twice
           (Node (Import (mk_alias "os" None) [mk_alias "sys" None]) 1 [])
           (mk_alias "os" None) [mk_alias "sys" None] (mk_alias "sys" None)).
  - left. reflexivity.
  - reflexivity.
  - left. reflexivity.
  - vm_compute. right. left. reflexivity.
Qed.

(** C9 (amended): only the module name of the first clause of a top-level
    [import] statement can be reported; any other name (one bound only by
    [from ... import], or only by a later clause of [import a, b]) is never
    reported as an unused import, referenced or not. *)
Theorem C9_only_first_clause_reported (set_iter : list string -> list string)
    (Hok : set_iter_ok set_iter) (t : node) (N : string) :
  ~ In (Some N) (map first_import_name (tree_body t)) ->
  ~ In (unused_import_msg N) (analyze set_iter t).
Proof.
  intros Hn. rewrite In_unused_msg, In_unused_imports, In_imported_modules by exact Hok.
  intros [Hi _]. exact (Hn Hi).
Qed.

(** C10: [while] loops play no part in nested-loop detection: turning every
    [while] into a non-loop statement leaves the findings unchanged, and every
    nested-loop finding is at the line of a [for] node of the tree. *)
Theorem C10_only_for_loops_count (set_iter : list string -> list string) (t : node) :
  analyze set_iter (erase_while t) = analyze set_iter t /\
  (forall m, In m (nested_loop_issues t) ->
   exists n, In n (preorder t) /\ is_For n = true /\ m = nested_loop_msg (node_lineno n)).
Proof.
  split; [apply analyze_erase_while|].
  intros m Hm. unfold nested_loop_issues in Hm.
  apply in_map_iff in Hm as [n [Hm Hn]]. apply filter_In in Hn as [Hn Hf].
  exists n. split; [|split].
  - eapply Permutation_in; [apply walk_perm_preorder | exact Hn].
  - unfold nested_loop_flag in Hf. apply andb_true_iff in Hf. tauto.
  - symmetry. exact Hm.
Qed.

(** ** Further properties *)

Lemma slow_inner (i : Z) (js : list Z) (r : list (Z * Z)) :
  fold_left (fun result j => if Z.ltb 10 (i * j) then (result ++ [(i, j)])%list else result) js r =
  (r ++ flat_map (fun j => if Z.ltb 10 (i * j) then [(i, j)] else []) js)%list.
Proof.
  revert r. induction js as [|j js IH]; intros r; simpl; [rewrite app_nil_r; reflexivity|].
  rewrite IH. destruct (Z.ltb 10 (i * j)); simpl; [rewrite <- app_assoc|]; reflexivity.
Qed.

Lemma slow_outer (numbers is : list Z) (r : list (Z * Z)) :
  fold_left
    (fun result i =>
       fold_left
         (fun result j => if Z.ltb 10 (i * j) then (result ++ [(i, j)])%list else result)
         numbers result)
    is r =
  (r ++ flat_map (fun i => flat_map (fun j => if Z.ltb 10 (i * j) then [(i, j)] else []) numbers) is)%list.
Proof.
  revert r. induction is as [|i is IH]; intros r; simpl; [rewrite app_nil_r; reflexivity|].
  rewrite slow_inner, IH, app_assoc. reflexivity.
Qed.

Lemma slow_function_as_comprehension (numbers : list Z) :
  slow_function numbers = optimized_function numbers.
Proof. unfold slow_function. rewrite slow_outer. reflexivity. Qed.

(** X1: the comprehension of cell 5 returns exactly what the nested loops of
    cell 3 return, in the same order. *)
Theorem slow_function_eq_optimized (numbers : list Z) :
  slow_function numbers = optimized_function numbers.
Proof. apply slow_function_as_comprehension. Qed.

Lemma count_inner (a i j : Z) (ys : list Z) :
  count_occ pair_eq_dec (flat_map (fun b => if Z.ltb 10 (a * b) then [(a, b)] else []) ys) (i, j) =
  if Z.eqb a i && Z.ltb 10 (i * j) then count_occ Z.eq_dec ys j else 0.
Proof.
  induction ys as [|b ys IH]; simpl.
  - destruct (Z.eqb a i && Z.ltb 10 (i * j)); reflexivity.
  - rewrite count_occ_app, IH.
    destruct (Z.ltb 10 (a * b)) eqn:Hab; simpl.
    + destruct (pair_eq_dec (a, b) (i, j)) as [E|E].
      * inversion E; subst. rewrite Z.eqb_refl, Hab. simpl.
        destruct (Z.eq_dec j j); [lia | congruence].
      * destruct (Z.eqb a i) eqn:Ea; simpl; [|lia].
        apply Z.eqb_eq in Ea; subst.
        destruct (Z.ltb 10 (i * j)); [|lia].
        destruct (Z.eq_dec b j); [subst; congruence | lia].
    + destruct (Z.eqb a i) eqn:Ea; simpl; [|lia].
      apply Z.eqb_eq in Ea; subst.
      destruct (Z.eq_dec b j) as [->|]; [rewrite Hab; simpl; lia|].
      destruct (Z.ltb 10 (i * j)); lia.
Qed.

Lemma count_optimized_function (numbers : list Z) (i j : Z) :
  count_occ pair_eq_dec (optimized_function numbers) (i, j) =
  if Z.ltb 10 (i * j) then count_occ Z.eq_dec numbers i * count_occ Z.eq_dec numbers j else 0.
Proof.
  unfold optimized_function. generalize numbers at 2 3 as xs.
  induction xs as [|a xs IH]; simpl; [destruct (Z.ltb 10 (i * j)); reflexivity|].
  rewrite count_occ_app, IH, count_inner.
  destruct (Z.eqb a i) eqn:Ea; destruct (Z.eq_dec a i) as [E|E]; simpl.
  - destruct (Z.ltb 10 (i * j)); lia.
  - apply Z.eqb_eq in Ea. contradiction.
  - apply Z.eqb_neq in Ea. contradiction.
  - destruct (Z.ltb 10 (i * j)); lia.
Qed.

(** X2: the multiplicity of a pair (i, j) in the result is the product of the
    multiplicities of i and j in the input when i * j > 10, and 0 otherwise. *)
Theorem optimized_function_count (numbers : list Z) (i j : Z) :
  count_occ pair_eq_dec (optimized_function numbers) (i, j) =
  if Z.ltb 10 (i * j) then count_occ Z.eq_dec numbers i * count_occ Z.eq_dec numbers j else 0.
Proof. apply count_optimized_function. Qed.

(** X3: a pair (i, j) is in the result exactly when i and j both occur in
    the input and i * j > 10. *)
Theorem optimized_function_In (numbers : list Z) (i j : Z) :
  In (i, j) (optimized_function numbers) <-> In i numbers /\ In j numbers /\ (10 < i * j)%Z.
Proof.
  rewrite (count_occ_In pair_eq_dec), count_optimized_function,
    !(count_occ_In Z.eq_dec), <- Z.ltb_lt.
  destruct (Z.ltb 10 (i * j)); [|split; [lia | intros [_ [_ H]]; discriminate H]].
  split.
  - intros H. split; [|split; [|reflexivity]]; destruct (count_occ Z.eq_dec numbers i);
      destruct (count_occ Z.eq_dec numbers j); simpl in H; lia.
  - intros [Hi [Hj _]]. nia.
Qed.

Lemma count_occ_map_swap (l : list (Z * Z)) (i j : Z) :
  count_occ pair_eq_dec (map swap l) (i, j) = count_occ pair_eq_dec l (j, i).
Proof.
  induction l as [|[a b] l IH]; simpl; [reflexivity|].
  destruct (pair_eq_dec (b, a) (i, j)) as [E|E], (pair_eq_dec (a, b) (j, i)) as [E'|E'];
    try (inversion E; subst); try (inversion E'; subst); try congruence; rewrite IH; reflexivity.
Qed.

(** X4: the result is symmetric: swapping every pair gives a permutation of it. *)
Theorem optimized_function_swap_perm (numbers : list Z) :
  Permutation (map swap (optimized_function numbers)) (optimized_function numbers).
Proof.
  apply (Permutation_count_occ pair_eq_dec). intros [i j].
  rewrite count_occ_map_swap, !count_optimized_function, Z.mul_comm, Nat.mul_comm.
  reflexivity.
Qed.

(** X5: reordering the input only reorders the result. *)
Theorem optimized_function_perm (numbers numbers' : list Z) :
  Permutation numbers numbers' ->
  Permutation (optimized_function numbers) (optimized_function numbers').
Proof.
  intros Hp. apply (Permutation_count_occ pair_eq_dec). intros [i j].
  rewrite !count_optimized_function.
  rewrite !(proj1 (Permutation_count_occ Z.eq_dec _ _) Hp). reflexivity.
Qed.

(** X6: the logging version of cell 7 returns the same list as the nested
    loops of cell 3 and emits one INFO record, naming the input's length. *)
Theorem optimized_function_logged_spec (numbers : list Z) :
  optimized_function_logged numbers =
  ([(INFO, ("Processing " ++ str_of_nat (List.length numbers) ++ " numbers")%string)],
   slow_function numbers).
Proof.
  rewrite slow_function_as_comprehension. reflexivity.
Qed.

Lemma Permutation_filter_bool {A : Type} (f : A -> bool) (l l' : list A) :
  Permutation l l' -> Permutation (filter f l) (filter f l').
Proof.
  induction 1; simpl.
  - constructor.
  - destruct (f x); [constructor|]; assumption.
  - destruct (f x), (f y); try constructor; reflexivity.
  - eapply perm_trans; eassumption.
Qed.

Lemma nested_loop_flag_is_For (n : node) : nested_loop_flag n = is_For n.
Proof.
  destruct (is_For n) eqn:E; [apply for_always_flagged, E|].
  unfold nested_loop_flag. rewrite E. reflexivity.
Qed.

Lemma nested_loop_issues_perm_for (t : node) :
  Permutation (nested_loop_issues t)
              (map (fun n => nested_loop_msg (node_lineno n)) (filter is_For (preorder t))).
Proof.
  unfold nested_loop_issues. apply Permutation_map.
  rewrite (filter_ext nested_loop_flag is_For nested_loop_flag_is_For).
  apply Permutation_filter_bool, walk_perm_preorder.
Qed.

(** X8: each [for] node of the tree gets exactly one nested-loop finding, at
    its own line, whatever its body holds, and nothing else gets one. *)
Theorem nested_loop_issues_one_per_for (t : node) :
  Permutation (nested_loop_issues t)
              (map (fun n => nested_loop_msg (node_lineno n)) (filter is_For (preorder t))).
Proof. apply nested_loop_issues_perm_for. Qed.

(** X9: a script with no [for] node anywhere and no top-level plain [import]
    statement gets no finding, and the report is the success line. *)
Theorem no_for_no_import_clean (set_iter : list string -> list string)
    (Hok : set_iter_ok set_iter) (t : node) :
  (forall n, In n (preorder t) -> is_For n = false) ->
  (forall n, In n (tree_body t) -> first_import_name n = None) ->
  analyze set_iter t = [] /\ report (analyze set_iter t) = [no_issues_line].
Proof.
  intros Hfor Himp.
  assert (Hn : nested_loop_issues t = []).
  { pose proof (nested_loop_issues_perm_for t) as P.
    assert (filter is_For (preorder t) = []) as E.
    { revert Hfor. generalize (preorder t) as l.
      induction l as [|x l IH]; intros Hl; [reflexivity|]. simpl.
      rewrite Hl by (left; reflexivity). apply IH. intros n Hn. apply Hl. right. exact Hn. }
    rewrite E in P. apply Permutation_nil, Permutation_sym, P. }
  assert (Hu : unused_imports t = []).
  { unfold unused_imports, imported_modules.
    revert Himp. generalize (tree_body t) as l.
    induction l as [|x l IH]; intros Hl; [reflexivity|]. simpl.
    rewrite Hl by (left; reflexivity). apply IH. intros n Hn'. apply Hl. right. exact Hn'. }
  assert (Ha : analyze set_iter t = []).
  { unfold analyze, unused_import_issues. rewrite Hn, Hu.
    rewrite (Permutation_nil (Permutation_sym (Hok [] (NoDup_nil _)))). reflexivity. }
  split; [exact Ha|]. rewrite Ha. reflexivity.
Qed.

(** X10: the assertion of [test_optimized_function] (cell 9) does not hold
    for the comprehension of cells 5 and 7, nor for [slow_function]: on
    [2, 5, 7] they also return (2, 7), (5, 5) and (7, 2), as 2 * 7 = 14 and
    5 * 5 = 25 exceed 10. *)
Theorem test_optimized_function_fails :
  optimized_function [2; 5; 7]%Z = [(2, 7); (5, 5); (5, 7); (7, 2); (7, 5); (7, 7)]%Z /\
  optimized_function [2; 5; 7]%Z <> [(5, 7); (7, 5); (7, 7)]%Z /\
  slow_function [2; 5; 7]%Z <> [(5, 7); (7, 5); (7, 7)]%Z.
Proof.
  split; [reflexivity|]. split; [discriminate|].
  rewrite slow_function_as_comprehension. discriminate.
Qed.

(** ** Witnesses *)

Lemma C3_unused_import_exact_witness :
  set_iter_ok (fun l => l) /\
  ((count_occ string_dec (analyze (fun l => l) numpy_as_np) (unused_import_msg "numpy") = 1 <->
    In (Some "numpy") (map first_import_name (tree_body numpy_as_np)) /\
    (forall n, In n (preorder numpy_as_np) -> name_id n <> Some "numpy")) /\
   count_occ string_dec (analyze (fun l => l) numpy_as_np) (unused_import_msg "numpy") <= 1).
Proof.
  split; [intros l _; reflexivity|].
  apply (C3_unused_import_exact (fun l => l) (fun l _ => Permutation_refl l)).
Defined.

Lemma C4_referenced_not_reported_witness :
  set_iter_ok (fun l => l) /\
  In (Node (Name "random") 13 []) (preorder example_script) /\
  ~ In (unused_import_msg "random") (analyze (fun l => l) example_script).
Proof.
  assert (Hin : In (Node (Name "random") 13 []) (preorder example_script)).
  { vm_compute. repeat (first [left; reflexivity | right]). }
  split; [intros l _; reflexivity|]. split; [exact Hin|].
  apply (C4_referenced_not_reported (fun l => l) (fun l _ => Permutation_refl l)
           example_script "random" 13 []).
  exact Hin.
Defined.

Lemma C5_keyed_on_module_name_witness :
  set_iter_ok (@rev string) /\
  In (Node (Import (mk_alias "numpy" (Some "np")) []) 1 []) (tree_body example_script) /\
  (forall n, In n (preorder example_script) ->
     name_id n <> Some "numpy" /\ name_id n <> Some "np") /\
  count_occ string_dec (analyze (@rev string) example_script) (unused_import_msg "numpy") = 1 /\
  (~ In (Some "np") (map first_import_name (tree_body example_script)) ->
   ~ In (unused_import_msg "np") (analyze (@rev string) example_script)).
Proof.
  assert (Hok : set_iter_ok (@rev string)).
  { intros l _. symmetry. apply Permutation_rev. }
  assert (Hin : In (Node (Import (mk_alias "numpy" (Some "np")) []) 1 []) (tree_body example_script)).
  { left. reflexivity. }
  assert (Hnames : forall n, In n (preorder example_script) ->
                     name_id n <> Some "numpy" /\ name_id n <> Some "np").
  { intros n Hn. simpl in Hn.
    repeat (destruct Hn as [<- | Hn]; [split; discriminate|]). contradiction. }
  split; [exact Hok|]. split; [exact Hin|]. split; [exact Hnames|].
  apply (C5_keyed_on_module_name (@rev string) Hok example_script "numpy" "np" [] 1 [] Hin Hnames).
Defined.

Lemma C7_syntax_error_aborts_witness :
  bracket_parse "print((1)" = ParseFailed "unexpected EOF while parsing" /\
  analyze_python_script bracket_parse (fun l => l) "print((1)" =
    Raised (SyntaxError "unexpected EOF while parsing") /\
  forall issues, analyze_python_script bracket_parse (fun l => l) "print((1)" <> Returned issues.
Proof.
  split; [reflexivity|].
  apply (C7_syntax_error_aborts bracket_parse (fun l => l)). reflexivity.
Defined.

Lemma C8_runs_agree_up_to_set_order_witness :
  set_iter_ok (fun l => l) /\ set_iter_ok (@rev string) /\
  ((exists e, analyze_python_script bracket_parse (fun l => l) "print(1)" = Raised e /\
              analyze_python_script bracket_parse (@rev string) "print(1)" = Raised e) \/
   (exists tree u1 u2,
      analyze_python_script bracket_parse (fun l => l) "print(1)" =
        Returned (nested_loop_issues tree ++ u1) /\
      analyze_python_script bracket_parse (@rev string) "print(1)" =
        Returned (nested_loop_issues tree ++ u2) /\
      Permutation u1 u2)).
Proof.
  assert (H1 : set_iter_ok (fun l => l)) by (intros l _; reflexivity).
  assert (H2 : set_iter_ok (@rev string)) by (intros l _; symmetry; apply Permutation_rev).
  split; [exact H1|]. split; [exact H2|].
  apply (C8_runs_agree_up_to_set_order bracket_parse _ _ H1 H2).
Defined.

Lemma C9_only_first_clause_reported_witness :
  set_iter_ok (fun l => l) /\
  ~ In (Some "sys") (map first_import_name (tree_body os_comma_sys)) /\
  ~ In (unused_import_msg "sys") (analyze (fun l => l) os_comma_sys).
Proof.
  assert (Hn : ~ In (Some "sys") (map first_import_name (tree_body os_comma_sys))).
  { vm_compute. intros [H | []]. discriminate H. }
  split; [intros l _; reflexivity|]. split; [exact Hn|].
  apply (C9_only_first_clause_reported (fun l => l) (fun l _ => Permutation_refl l)).
  exact Hn.
Defined.

Lemma optimized_function_perm_witness :
  Permutation [2; 5; 7]%Z [5; 7; 2]%Z /\
  Permutation (optimized_function [2; 5; 7]%Z) (optimized_function [5; 7; 2]%Z).
Proof.
  assert (Hp : Permutation [2; 5; 7]%Z [5; 7; 2]%Z) by exact (Permutation_cons_append [5; 7]%Z 2%Z).
  split; [exact Hp|]. apply (optimized_function_perm _ _ Hp).
Defined.

Lemma no_for_no_import_clean_witness :
  set_iter_ok (fun l => l) /\
  (forall n, In n (preorder from_import_and_while) -> is_For n = false) /\
  (forall n, In n (tree_body from_import_and_while) -> first_import_name n = None) /\
  analyze (fun l => l) from_import_and_while = [] /\
  report (analyze (fun l => l) from_import_and_while) = [no_issues_line].
Proof.
  assert (H1 : set_iter_ok (fun l => l)) by (intros l _; reflexivity).
  assert (H2 : forall n, In n (preorder from_import_and_while) -> is_For n = false).
  { intros n Hn. simpl in Hn.
    repeat (destruct Hn as [<- | Hn]; [reflexivity|]). contradiction. }
  assert (H3 : forall n, In n (tree_body from_import_and_while) -> first_import_name n = None).
  { intros n Hn. simpl in Hn.
    repeat (destruct Hn as [<- | Hn]; [reflexivity|]). contradiction. }
  split; [exact H1|]. split; [exact H2|]. split; [exact H3|].
  apply (no_for_no_import_clean (fun l => l) H1 from_import_and_while H2 H3).
Defined.

(** ** Runs on sample inputs *)

Example example_script_run :
  analyze (fun l => l) example_script =
  [ "Inefficient nested loop found at line 7";
    "Inefficient nested loop found at line 8";
    "Unused import: numpy" ].
Proof. reflexivity. Qed.
